(** * Work in Taiwan Guide API

    A shallow embedding of the request handlers of [main.py] over a model
    of the document store they talk to, and the properties of the
    specification proved about them.

    - [Py]: the Python values the handlers see (BSON documents as dicts),
      [str], truth values, [<] and the stable [list.sort].
    - [Mongo]: one collection of the document store, with the driver
      operations the handlers call ([find_one], [find], [insert_one],
      [update_one] with [$set], [delete_one]).
    - [Database]: the data-access helpers [create_document] and
      [get_documents].
    - the entity models of [schemas.py] and the handlers of [main.py].

    What the process does not decide is an explicit argument of the
    handler that needs it: the ObjectId the store assigns to a new
    document, the salt of a new password hash, the clock reading of
    [datetime.utcnow()]. *)

From Stdlib Require Import ZArith List String Ascii Sorted Permutation Lia.
From Stdlib Require Strings.Byte.
From stdpp Require Import base option gmap list sorting strings pretty.

Set Warnings "-register-all".
Set Default Proof Using "Type".

Local Open Scope string_scope.
Local Open Scope Z_scope.
Local Open Scope list_scope.

(** ** Exceptions and results *)

(** What a handler can raise. [HTTPException] is FastAPI's, raised by the
    handlers themselves; every other exception comes out of a library call
    and is not caught by any handler. *)
Inductive exception :=
| HTTPException (status_code : Z) (detail : string)
| DatabaseNotAvailable
| InvalidId
| DuplicateKeyError
| WriteError
| TypeError
| ValueError
| ValidationError.

Inductive result (A : Type) :=
| Ok (a : A)
| Raise (e : exception).
Arguments Ok {A} a.
Arguments Raise {A} e.

#[global] Instance result_ret : MRet result := fun _ a => Ok a.
#[global] Instance result_bind : MBind result := fun _ _ f m =>
  match m with
  | Ok a => f a
  | Raise e => Raise e
  end.

Definition is_ok {A} (r : result A) : bool :=
  match r with Ok _ => true | Raise _ => false end.

(** ** ObjectId *)

#[global] Instance byte_eq_dec : EqDecision Byte.byte := Byte.byte_eq_dec.

(** [bson.ObjectId]: twelve bytes. [str] prints them as 24 lower-case hex
    digits; the constructor accepts a string of exactly 24 hex digits of
    either case and raises [InvalidId] on anything else. *)
Definition ObjectId := list Byte.byte.

Module Hex.

(** The digit of a value below 16: "0".."9" are the characters 48..57,
    "a".."f" the characters 97..102. *)
Definition digit (n : N) : ascii :=
  ascii_of_N (if n <? 10 then 48 + n else 87 + n)%N.

(** The value of a hex digit of either case ("A".."F" are 65..70). *)
Definition value (c : ascii) : option N :=
  let n := N_of_ascii c in
  if ((48 <=? n) && (n <=? 57))%N then Some (n - 48)%N
  else if ((97 <=? n) && (n <=? 102))%N then Some (n - 87)%N
  else if ((65 <=? n) && (n <=? 70))%N then Some (n - 55)%N
  else None.

Definition of_byte (b : Byte.byte) : string :=
  let n := Byte.to_N b in
  String (digit (n / 16)) (String (digit (n mod 16)) EmptyString).

Fixpoint of_bytes (bs : list Byte.byte) : string :=
  match bs with
  | [] => EmptyString
  | b :: bs => of_byte b +:+ of_bytes bs
  end.

(** [bytes.fromhex] on a string without white space. *)
Fixpoint to_bytes (s : string) : option (list Byte.byte) :=
  match s with
  | EmptyString => Some []
  | String hi (String lo rest) =>
      h ← value hi; l ← value lo;
      b ← Byte.of_N (16 * h + l);
      bs ← to_bytes rest;
      Some (b :: bs)
  | String _ EmptyString => None
  end.

End Hex.

Definition ObjectId_str (o : ObjectId) : string := Hex.of_bytes o.

Definition ObjectId_of_str (s : string) : result ObjectId :=
  if Nat.eqb (String.length s) 24
  then match Hex.to_bytes s with
       | Some o => Ok o
       | None => Raise InvalidId
       end
  else Raise InvalidId.

(** ** Python values *)

Module Py.

(** The values stored in documents and carried by request bodies. *)
Inductive value :=
| VNone
| VBool (b : bool)
| VInt (n : Z)
| VStr (s : string)
| VOid (o : ObjectId)
| VDatetime (t : Z)
| VList (l : list value)
| VDict (m : gmap string value).

Abbreviation dict := (gmap string value).

(** [str] of a datetime, a list or a dict: no handler and no property
    below depends on how these print, so the rendering is a parameter. *)
Class Repr := repr : value → string.

Definition str `{py_repr : !Repr} (v : value) : string :=
  match v with
  | VNone => "None"
  | VBool true => "True"
  | VBool false => "False"
  | VInt n => pretty n
  | VStr s => s
  | VOid o => ObjectId_str o
  | _ => repr v
  end.

(** [d.get(k)] and [d.get(k, default)]. *)
Definition get (d : dict) (k : string) : value := default VNone (d !! k).
Definition get_or (d : dict) (k : string) (dflt : value) : value :=
  default dflt (d !! k).

(** The truth value of the result of [find_one]: [None] and the empty
    dict are false. *)
Definition truthy (doc : option dict) : bool :=
  match doc with
  | None => false
  | Some d => negb (bool_decide (d = ∅))
  end.

Definition of_option_str (o : option string) : value :=
  from_option VStr VNone o.
Definition of_option_int (o : option Z) : value :=
  from_option VInt VNone o.

(** [a < b]. Numbers (bool is a subclass of int) compare with numbers,
    strings with strings, datetimes with datetimes; [None] and dicts are
    never ordered and every mixed pair raises [TypeError]. Lists, which
    Python orders lexicographically, and ObjectIds are treated here as
    unordered too. *)
Definition as_number (v : value) : option Z :=
  match v with
  | VBool b => Some (Z.b2z b)
  | VInt n => Some n
  | _ => None
  end.

Definition lt (a b : value) : result bool :=
  match as_number a, as_number b with
  | Some x, Some y => Ok (x <? y)
  | _, _ =>
      match a, b with
      | VStr s, VStr t => Ok (String.ltb s t)
      | VDatetime s, VDatetime t => Ok (s <? t)
      | _, _ => Raise TypeError
      end
  end.

(** [list.sort(key=...)]: the keys are computed once, the sort is stable
    and only ever asks [<] of two keys. Insertion from the right: [x] goes
    before the first [y] that is not smaller than it. *)
Fixpoint insert_by_key {A} (x : value * A) (l : list (value * A))
  : result (list (value * A)) :=
  match l with
  | [] => Ok [x]
  | y :: l' =>
      smaller ← lt (fst y) (fst x);
      if smaller : bool
      then l'' ← insert_by_key x l'; Ok (y :: l'')
      else Ok (x :: y :: l')
  end.

Fixpoint sort_keyed {A} (l : list (value * A)) : result (list (value * A)) :=
  match l with
  | [] => Ok []
  | x :: l' => s ← sort_keyed l'; insert_by_key x s
  end.

Definition sort {A} (key : A → value) (l : list A) : result (list A) :=
  s ← sort_keyed (map (λ x, (key x, x)) l); Ok (map snd s).

End Py.

Import Py.

(** ** The document store *)

Module Mongo.

(** A collection in its natural (retrieval) order. *)
Abbreviation collection := (list dict).

(** The values the handlers filter on: a string or an ObjectId. *)
Inductive key :=
| KStr (s : string)
| KOid (o : ObjectId).

(** An equality filter, [{field: value, ...}]. *)
Abbreviation filter := (list (string * key)).

Definition key_value (k : key) : value :=
  match k with
  | KStr s => VStr s
  | KOid o => VOid o
  end.

Definition scalar_matches (k : key) (v : value) : bool :=
  match k, v with
  | KStr s, VStr t => bool_decide (s = t)
  | KOid o, VOid p => bool_decide (o = p)
  | _, _ => false
  end.

(** [{field: k}] selects the documents whose field equals [k] or is an
    array with an element equal to [k]. *)
Definition field_matches (k : key) (v : option value) : bool :=
  match v with
  | Some (VList l) => existsb (scalar_matches k) l
  | Some v => scalar_matches k v
  | None => false
  end.

Definition matches (f : filter) (d : dict) : bool :=
  forallb (λ '(field, k), field_matches k (d !! field)) f.

Definition find_one (c : collection) (f : filter) : option dict :=
  List.find (matches f) c.

Definition find (c : collection) (f : filter) : list dict :=
  List.filter (matches f) c.

Definition has_id (o : ObjectId) (d : dict) : bool :=
  scalar_matches (KOid o) (get d "_id").

(** [insert_one] of a document that carries no [_id] of its own (no entity
    model has such a field): the driver adds the generated ObjectId [oid],
    and the store refuses an [_id] that is already taken. Returns the new
    collection and [inserted_id]. *)
Definition insert_one (c : collection) (doc : dict) (oid : ObjectId)
  : result (collection * ObjectId) :=
  if existsb (has_id oid) c then Raise DuplicateKeyError
  else Ok (c ++ [<["_id" := VOid oid]> doc], oid).

(** [$set]: the named fields are overwritten, the others kept, and an
    empty [set] changes nothing. The [_id] of a stored document cannot be
    changed. The keys of [set] are taken as field names: the dotted paths
    and the operators of the update language are not modelled. *)
Definition apply_set (set d : dict) : result dict :=
  match set !! "_id" with
  | None => Ok (set ∪ d)
  | Some v =>
      match v, d !! "_id" with
      | VOid o, Some (VOid p) =>
          if bool_decide (o = p) then Ok (set ∪ d) else Raise WriteError
      | _, _ => Raise WriteError
      end
  end.

(** The first document selected by [f] is replaced by [g] of it; the
    count is the number of documents matched (0 or 1). *)
Fixpoint update_first (f : filter) (g : dict → result dict) (c : collection)
  : result (collection * Z) :=
  match c with
  | [] => Ok ([], 0)
  | d :: c' =>
      if matches f d
      then d' ← g d; Ok (d' :: c', 1)
      else '(c'', n) ← update_first f g c'; Ok (d :: c'', n)
  end.

Definition filter_fields (f : filter) : dict :=
  list_to_map (map (λ '(field, k), (field, key_value k)) f).

(** [update_one(f, {"$set": set}, upsert=...)]. [upsert] is [None] for
    [upsert=False], and the ObjectId the store would assign for
    [upsert=True]: when no document matches, the document made of the
    filter's fields and of [set] is inserted under it. Returns the new
    collection and [matched_count]. *)
Definition update_one (c : collection) (f : filter) (set : dict)
    (upsert : option ObjectId) : result (collection * Z) :=
  '(c', matched_count) ← update_first f (apply_set set) c;
  match upsert with
  | Some oid =>
      if bool_decide (matched_count = 0)
      then '(c'', _) ← insert_one c (set ∪ filter_fields f) oid;
           Ok (c'', 0)
      else Ok (c', matched_count)
  | None => Ok (c', matched_count)
  end.

(** [delete_one(f)]: the first matching document is removed. Returns the
    new collection and [deleted_count]. *)
Fixpoint delete_one (c : collection) (f : filter) : collection * Z :=
  match c with
  | [] => ([], 0)
  | d :: c' =>
      if matches f d then (c', 1)
      else let '(c'', n) := delete_one c' f in (d :: c'', n)
  end.

End Mongo.

(** The database: its collections by name; a collection that was never
    written to is empty. *)
Abbreviation database := (gmap string Mongo.collection).

Definition collection_of (d : database) (name : string) : Mongo.collection :=
  default [] (d !! name).

Notation "d .[ name ]" := (collection_of d name)
  (at level 1, left associativity, format "d .[ name ]").

(** ** Entity models ([schemas.py]) *)

Class BaseModel (A : Type) := model_dump : A → dict.

Module User.
Record t := mk {
  email : string;
  password_hash : string;
  name : option string;
  role : string;
  preferences : dict;
}.
#[global] Instance dump : BaseModel t := λ u,
  {[ "email" := VStr (email u);
     "password_hash" := VStr (password_hash u);
     "name" := of_option_str (name u);
     "role" := VStr (role u);
     "preferences" := VDict (preferences u) ]}.
End User.

Module Step.
Record t := mk {
  key : string;
  title : string;
  description : option string;
  content : string;
  resources : list (gmap string string);
  estimate_days : option Z;
  cost_estimate : option string;
  order : Z;
}.
#[global] Instance dump : BaseModel t := λ s,
  {[ "key" := VStr (key s);
     "title" := VStr (title s);
     "description" := of_option_str (description s);
     "content" := VStr (content s);
     "resources" := VList (map (λ r, VDict (VStr <$> r)) (resources s));
     "estimate_days" := of_option_int (estimate_days s);
     "cost_estimate" := of_option_str (cost_estimate s);
     "order" := VInt (order s) ]}.
End Step.

Module Notification.
Record t := mk {
  user_id : string;
  type : string;
  message : string;
  due_date : option string;
}.
#[global] Instance dump : BaseModel t := λ n,
  {[ "user_id" := VStr (user_id n);
     "type" := VStr (type n);
     "message" := VStr (message n);
     "due_date" := of_option_str (due_date n) ]}.
End Notification.

(** ** Data-access layer *)

Module Database.

(** Modelled from the spec: [create_document] of [database.py], which
    [main.py] imports. It inserts the entity's fields as a new document
    into the named collection and returns the newly generated document
    identifier as a string; it fails, signalling that storage is
    unavailable, when there is no store to write to. *)
Definition create_document `{BaseModel A} (db : option database)
    (collection_name : string) (data : A) (oid : ObjectId)
  : result (string * database) :=
  match db with
  | None => Raise DatabaseNotAvailable
  | Some d =>
      '(c, inserted_id) ←
        Mongo.insert_one d.[collection_name] (model_dump data) oid;
      Ok (ObjectId_str inserted_id, <[collection_name := c]> d)
  end.

(** Modelled from the spec: [get_documents] of [database.py]. It returns
    all the documents of the named collection that match the equality
    filter (empty by default), identifiers included in raw form, with no
    pagination and no sort. Both callers test the handle first, so it is
    given the database itself. *)
Definition get_documents (d : database) (collection_name : string)
    (filter_dict : Mongo.filter) : list dict :=
  Mongo.find d.[collection_name] filter_dict.

End Database.

Import Database.

(** ** Request and response models ([main.py]) *)

Module LoginRequest.
Record t := mk { email : string; password : string }.
End LoginRequest.

Module SignupRequest.
Record t := mk { email : string; password : string; name : option string }.
End SignupRequest.

Module AuthResponse.
Record t := mk {
  user_id : string;
  email : string;
  name : option string;
  role : string;
}.
(** The response body. *)
#[global] Instance dump : BaseModel t := λ r,
  {[ "user_id" := VStr (user_id r);
     "email" := VStr (email r);
     "name" := of_option_str (name r);
     "role" := VStr (role r) ]}.
End AuthResponse.

Module ProgressUpdate.
Record t := mk { user_id : string; items : gmap string bool }.
End ProgressUpdate.

Module NotificationIn.
Record t := mk {
  user_id : string;
  message : string;
  due_date : option string;
}.
End NotificationIn.

(** Validation of a stored value against a [str] and an [Optional[str]]
    field of a response model. *)
Definition as_str (v : value) : result string :=
  match v with
  | VStr s => Ok s
  | _ => Raise ValidationError
  end.

Definition as_optional_str (v : value) : result (option string) :=
  match v with
  | VNone => Ok None
  | VStr s => Ok (Some s)
  | _ => Raise ValidationError
  end.

(** ** Password hashing *)

(** [pwd_context = CryptContext(schemes=["bcrypt"])]. [ctx_hash salt
    secret] is [hash(secret)] when the scheme draws [salt]; [ctx_verify
    secret hash] is [verify(secret, hash)]. Either is [None] when the
    library raises (a secret the scheme refuses, a string that is not one
    of its hashes). *)
Class CryptContext := {
  ctx_hash : string → string → option string;
  ctx_verify : string → string → option bool;
}.

Section Handlers.
Context `{py_repr : !Repr} `{pwd_context : !CryptContext}.

Definition hash_password (salt password : string) : result string :=
  match ctx_hash salt password with
  | Some h => Ok h
  | None => Raise ValueError
  end.

(** [verify] answers [False] for a hash that is [None] and refuses a
    hash that is not a string. *)
Definition verify_password (plain : string) (hashed : value) : result bool :=
  match hashed with
  | VNone => Ok false
  | VStr h =>
      match ctx_verify plain h with
      | Some b => Ok b
      | None => Raise ValueError
      end
  | _ => Raise TypeError
  end.

(** ** Handlers

    [db] is the process-wide connection handle, absent ([None]) when the
    store could not be reached at start-up; a handle that is present
    counts as true in [if db]. A handler that writes returns the database
    after the write next to its response. *)

Definition signup (db : option database) (payload : SignupRequest.t)
    (salt : string) (oid : ObjectId) : result (AuthResponse.t * database) :=
  let existing :=
    match db with
    | Some d =>
        Mongo.find_one d.["user"]
          [("email", Mongo.KStr (SignupRequest.email payload))]
    | None => None
    end in
  if truthy existing
  then Raise (HTTPException 400 "Email already registered")
  else
    h ← hash_password salt (SignupRequest.password payload);
    let user := {|
      User.email := SignupRequest.email payload;
      User.password_hash := h;
      User.name := SignupRequest.name payload;
      User.role := "user";
      User.preferences := ∅ |} in
    '(user_id, d') ← create_document db "user" user oid;
    Ok ({| AuthResponse.user_id := user_id;
           AuthResponse.email := SignupRequest.email payload;
           AuthResponse.name := SignupRequest.name payload;
           AuthResponse.role := "user" |}, d').

Definition login (db : option database) (payload : LoginRequest.t)
  : result AuthResponse.t :=
  let doc :=
    match db with
    | Some d =>
        Mongo.find_one d.["user"]
          [("email", Mongo.KStr (LoginRequest.email payload))]
    | None => None
    end in
  if negb (truthy doc)
  then Raise (HTTPException 401 "Invalid credentials")
  else
    let doc := default ∅ doc in
    verified ← verify_password (LoginRequest.password payload)
                 (get_or doc "password_hash" (VStr ""));
    if negb verified
    then Raise (HTTPException 401 "Invalid credentials")
    else
      email ← as_str (get doc "email");
      name ← as_optional_str (get doc "name");
      role ← as_str (get_or doc "role" (VStr "user"));
      Ok {| AuthResponse.user_id := str (get doc "_id");
            AuthResponse.email := email;
            AuthResponse.name := name;
            AuthResponse.role := role |}.

(** The loop body shared by [list_steps] and [list_notifications]:
    [it["id"] = str(it.get("_id")); it.pop("_id", None)]. *)
Definition with_string_id (it : dict) : dict :=
  delete "_id" (<["id" := VStr (str (get it "_id"))]> it).

Definition list_steps (db : option database) : result (list dict) :=
  let items :=
    match db with
    | Some d => get_documents d "step" []
    | None => []
    end in
  let items := map with_string_id items in
  Py.sort (λ x, get_or x "order" (VInt 0)) items.

Definition create_step (db : option database) (step : Step.t)
    (oid : ObjectId) : result (dict * database) :=
  '(step_id, d') ← create_document db "step" step oid;
  Ok ({[ "id" := VStr step_id ]}, d').

Definition update_step (db : option database) (step_id : string)
    (payload : dict) : result (dict * database) :=
  match db with
  | None => Raise (HTTPException 500 "Database not available")
  | Some d =>
      oid ← ObjectId_of_str step_id;
      '(c, matched_count) ←
        Mongo.update_one d.["step"] [("_id", Mongo.KOid oid)] payload None;
      if bool_decide (matched_count = 0)
      then Raise (HTTPException 404 "Step not found")
      else Ok ({[ "updated" := VBool true ]}, <["step" := c]> d)
  end.

Definition delete_step (db : option database) (step_id : string)
  : result (dict * database) :=
  match db with
  | None => Raise (HTTPException 500 "Database not available")
  | Some d =>
      oid ← ObjectId_of_str step_id;
      let '(c, deleted_count) :=
        Mongo.delete_one d.["step"] [("_id", Mongo.KOid oid)] in
      if bool_decide (deleted_count = 0)
      then Raise (HTTPException 404 "Step not found")
      else Ok ({[ "deleted" := VBool true ]}, <["step" := c]> d)
  end.

Definition get_progress (db : option database) (user_id : string) : dict :=
  match db with
  | None => {[ "items" := VDict ∅ ]}
  | Some d =>
      let doc := Mongo.find_one d.["progress"]
                   [("user_id", Mongo.KStr user_id)] in
      if negb (truthy doc)
      then {[ "items" := VDict ∅ ]}
      else {[ "items" := get_or (default ∅ doc) "items" (VDict ∅) ]}
  end.

Definition set_progress (db : option database) (payload : ProgressUpdate.t)
    (utcnow : Z) (oid : ObjectId) : result (dict * database) :=
  match db with
  | None => Raise (HTTPException 500 "Database not available")
  | Some d =>
      '(c, _) ←
        Mongo.update_one d.["progress"]
          [("user_id", Mongo.KStr (ProgressUpdate.user_id payload))]
          {[ "items" := VDict (VBool <$> ProgressUpdate.items payload);
             "updated_at" := VDatetime utcnow ]}
          (Some oid);
      Ok ({[ "saved" := VBool true ]}, <["progress" := c]> d)
  end.

Definition create_notification (db : option database)
    (payload : NotificationIn.t) (oid : ObjectId)
  : result (dict * database) :=
  let notif := {|
    Notification.user_id := NotificationIn.user_id payload;
    Notification.type := "reminder";
    Notification.message := NotificationIn.message payload;
    Notification.due_date := NotificationIn.due_date payload |} in
  '(notif_id, d') ← create_document db "notification" notif oid;
  Ok ({[ "id" := VStr notif_id ]}, d').

Definition list_notifications (db : option database) (user_id : string)
  : list dict :=
  let items :=
    match db with
    | Some d =>
        get_documents d "notification" [("user_id", Mongo.KStr user_id)]
    | None => []
    end in
  map with_string_id items.

(** ** Sequences of requests

    The requests that write, each with what the environment supplies to
    it. A request that raises leaves the database as it was; the reading
    requests never change it. *)
Inductive call :=
| Signup (payload : SignupRequest.t) (salt : string) (oid : ObjectId)
| CreateStep (step : Step.t) (oid : ObjectId)
| UpdateStep (step_id : string) (payload : dict)
| DeleteStep (step_id : string)
| SetProgress (payload : ProgressUpdate.t) (utcnow : Z) (oid : ObjectId)
| CreateNotification (payload : NotificationIn.t) (oid : ObjectId).

Definition written {A} (db : option database) (r : result (A * database))
  : option database :=
  match r with
  | Ok (_, d') => Some d'
  | Raise _ => db
  end.

Definition exec (db : option database) (c : call) : option database :=
  match c with
  | Signup payload salt oid => written db (signup db payload salt oid)
  | CreateStep step oid => written db (create_step db step oid)
  | UpdateStep step_id payload => written db (update_step db step_id payload)
  | DeleteStep step_id => written db (delete_step db step_id)
  | SetProgress payload utcnow oid =>
      written db (set_progress db payload utcnow oid)
  | CreateNotification payload oid =>
      written db (create_notification db payload oid)
  end.

Definition run (db : option database) (cs : list call) : option database :=
  fold_left exec cs db.

End Handlers.

(** The store at start-up: no handle, or a database with no collection. *)
Definition initial (connected : bool) : option database :=
  if connected then Some ∅ else None.

(** ** Vocabulary of the statements *)

(** The collection a request writes to. *)
Definition target (c : call) : string :=
  match c with
  | Signup _ _ _ => "user"
  | CreateStep _ _ | UpdateStep _ _ | DeleteStep _ => "step"
  | SetProgress _ _ _ => "progress"
  | CreateNotification _ _ => "notification"
  end.

(** The document [signup] stores for a request whose password hashed to
    [h], under the ObjectId [oid]. *)
Definition user_document (payload : SignupRequest.t) (h : string)
    (oid : ObjectId) : dict :=
  <["_id" := VOid oid]>
    (model_dump {| User.email := SignupRequest.email payload;
                   User.password_hash := h;
                   User.name := SignupRequest.name payload;
                   User.role := "user";
                   User.preferences := ∅ |}).

(** The fields [set_progress] writes with [$set]. *)
Definition progress_fields (items : gmap string bool) (utcnow : Z) : dict :=
  {[ "items" := VDict (VBool <$> items); "updated_at" := VDatetime utcnow ]}.

(** Every document of the collection has a string in [field], and no two
    documents the same one. *)
Definition keyed_by (field : string) (c : Mongo.collection) : Prop :=
  Forall (λ doc, ∃ s, doc !! field = Some (VStr s)) c ∧
  ∀ s, (List.length (Mongo.find c [(field, Mongo.KStr s)]) ≤ 1)%nat.

(** Every document of the collection has an ObjectId as its [_id]. *)
Definition identified (c : Mongo.collection) : Prop :=
  Forall (λ doc, ∃ o, doc !! "_id" = Some (VOid o)) c.

(** The document [create_notification] stores under the ObjectId [oid]. *)
Definition notification_document (payload : NotificationIn.t)
    (oid : ObjectId) : dict :=
  <["_id" := VOid oid]>
    (model_dump {| Notification.user_id := NotificationIn.user_id payload;
                   Notification.type := "reminder";
                   Notification.message := NotificationIn.message payload;
                   Notification.due_date := NotificationIn.due_date payload |}).




(** Keyed elements, as [list.sort] handles them, with an integer key,
    and their order by that key. *)
Definition int_keyed {A} (x : value * A) : Prop := ∃ n, fst x = VInt n.





(** ** An instance to run the handlers on

    A stand-in for the password scheme (it is not bcrypt: the hash is the
    secret behind a marker, whatever the salt) and for [repr], so that the
    handlers can be evaluated on concrete requests. *)
Module Demo.

#[export] Instance demo_repr : Repr := λ _, "<object>".

#[export] Instance demo_context : CryptContext := {|
  ctx_hash _ secret := Some (String "$" secret);
  ctx_verify secret h := Some (bool_decide (h = String "$" secret));
|}.

Definition oid1 : ObjectId :=
  [Byte.x65; Byte.x4a; Byte.x1b; Byte.x2c; Byte.x3d; Byte.x4e;
   Byte.x5f; Byte.x60; Byte.x71; Byte.x82; Byte.x93; Byte.xa4].
Definition oid2 : ObjectId :=
  [Byte.x65; Byte.x4a; Byte.x1b; Byte.x2c; Byte.x3d; Byte.x4e;
   Byte.x5f; Byte.x60; Byte.x71; Byte.x82; Byte.x93; Byte.xa5].

Definition ada : SignupRequest.t :=
  {| SignupRequest.email := "ada@example.org";
     SignupRequest.password := "s3cret";
     SignupRequest.name := Some "Ada" |}.

Definition step (key : string) (order : Z) : Step.t :=
  {| Step.key := key; Step.title := key; Step.description := None;
     Step.content := ""; Step.resources := []; Step.estimate_days := None;
     Step.cost_estimate := None; Step.order := order |}.

(** The database after Ada signed up under [oid1] on an empty store. *)
Definition with_ada : database :=
  {[ "user" := [user_document ada "$s3cret" oid1] ]}.

(** The Step documents stored for three Steps created under [oid1],
    [oid2] and [oid3]. *)
Definition visa : dict := <["_id" := VOid oid1]> (model_dump (step "visa" 3)).

End Demo.

(** ** The schema helper ([main.py]) *)

(** [get_schema_info]: the collection names announced to the admin
    viewer. *)
Definition get_schema_info : dict :=
  {[ "collections" :=
       VList [VStr "user"; VStr "progress"; VStr "step";
              VStr "notification"; VStr "recommendationprofile"] ]}.

(** ** More vocabulary *)





(** The document [create_step] stores under the ObjectId [oid]. *)
Definition step_document (step : Step.t) (oid : ObjectId) : dict :=
  <["_id" := VOid oid]> (model_dump step).

(** The integer a sort key holds, if it is one. *)
Definition int_of (v : value) : option Z :=
  match v with
  | VInt n => Some n
  | _ => None
  end.

(** The collection names [get_schema_info] announces. *)
Definition announced : list value :=
  match get_schema_info !! "collections" with
  | Some (VList names) => names
  | _ => []
  end.

(** * Properties *)

(** ** ObjectId *)

Lemma hex_of_byte_inv (b : Byte.byte) :
  Hex.to_bytes (Hex.of_byte b) = Some [b].
Proof. destruct b; reflexivity. Qed.

Lemma hex_to_bytes_of_bytes (bs : list Byte.byte) :
  Hex.to_bytes (Hex.of_bytes bs) = Some bs.
Proof.
  induction bs as [|b bs IH]; [reflexivity|].
  pose proof (hex_of_byte_inv b) as Hb.
  cbn [Hex.of_bytes]. unfold Hex.of_byte in *.
  change (String ?a (String ?c "") +:+ ?r) with (String a (String c r)).
  cbn [Hex.to_bytes] in Hb |- *.
  destruct (Hex.value (Hex.digit (Byte.to_N b `div` 16))) as [h|];
    [|discriminate Hb].
  destruct (Hex.value (Hex.digit (Byte.to_N b `mod` 16))) as [l|];
    [|discriminate Hb].
  cbn [mbind option_bind] in Hb |- *.
  destruct (Byte.of_N (16 * h + l)) as [b'|]; [|discriminate Hb].
  cbn [mbind option_bind] in Hb |- *. rewrite IH.
  cbn [mbind option_bind]. congruence.
Qed.

Lemma hex_of_bytes_length (bs : list Byte.byte) :
  String.length (Hex.of_bytes bs) = (2 * List.length bs)%nat.
Proof.
  induction bs as [|b bs IH]; [reflexivity|].
  cbn [Hex.of_bytes]. unfold Hex.of_byte.
  change (String ?a (String ?c "") +:+ ?r) with (String a (String c r)).
  cbn [String.length List.length]. rewrite IH. lia.
Qed.

(** The identifier a handler hands out is one [ObjectId(...)] accepts, and
    it denotes the same ObjectId. *)
Lemma ObjectId_of_str_str (o : ObjectId) :
  List.length o = 12%nat → ObjectId_of_str (ObjectId_str o) = Ok o.
Proof.
  intros Hlen. unfold ObjectId_of_str, ObjectId_str.
  rewrite hex_of_bytes_length, Hlen, hex_to_bytes_of_bytes. reflexivity.
Qed.

(** ** The driver operations *)

Section MongoFacts.
Implicit Types (c : Mongo.collection) (f : Mongo.filter) (d : dict).

Lemma find_one_Some c f d :
  Mongo.find_one c f = Some d → d ∈ c ∧ Mongo.matches f d = true.
Proof.
  intros H. apply List.find_some in H as [Hin Hm].
  split; [by apply list_elem_of_In | done].
Qed.

Lemma find_one_None c f :
  Mongo.find_one c f = None ↔ ∀ d, d ∈ c → Mongo.matches f d = false.
Proof.
  split.
  - intros H d Hin. eapply List.find_none; [exact H|]. by apply list_elem_of_In.
  - intros H. induction c as [|x c IH]; [reflexivity|].
    unfold Mongo.find_one in *. simpl. rewrite (H x) by left.
    apply IH. intros d Hd. apply H. by right.
Qed.

Lemma find_one_app c c' f :
  Mongo.find_one (c ++ c') f =
  match Mongo.find_one c f with
  | Some d => Some d
  | None => Mongo.find_one c' f
  end.
Proof.
  unfold Mongo.find_one. induction c as [|x c IH]; [reflexivity|].
  simpl. by destruct (Mongo.matches f x).
Qed.

Lemma find_app c c' f :
  Mongo.find (c ++ c') f = Mongo.find c f ++ Mongo.find c' f.
Proof. apply List.filter_app. Qed.


Lemma find_one_head c f : Mongo.find_one c f = head (Mongo.find c f).
Proof.
  unfold Mongo.find_one, Mongo.find. induction c as [|x c IH]; [reflexivity|].
  simpl. by destruct (Mongo.matches f x).
Qed.

Lemma find_None c f : Mongo.find_one c f = None → Mongo.find c f = [].
Proof. rewrite find_one_head. by destruct (Mongo.find c f). Qed.

(** The first match splits the collection. *)
Lemma find_one_split c f d :
  Mongo.find_one c f = Some d →
  ∃ before after,
    c = before ++ d :: after ∧ Mongo.find_one before f = None ∧
    Mongo.matches f d = true.
Proof.
  unfold Mongo.find_one. induction c as [|x c IH]; [discriminate|].
  simpl. destruct (Mongo.matches f x) eqn:Hx.
  - intros [= ->]. by exists [], c.
  - intros H. destruct (IH H) as (before & after & -> & Hb & Hd).
    exists (x :: before), after. simpl. by rewrite Hx.
Qed.

(** When at most one document matches, any matching document is the one
    [find_one] returns. *)
Lemma find_unique c f d :
  (List.length (Mongo.find c f) ≤ 1)%nat → d ∈ c →
  Mongo.matches f d = true →
  Mongo.find c f = [d] ∧ Mongo.find_one c f = Some d.
Proof.
  intros Hlen Hin Hm.
  assert (d ∈ Mongo.find c f) as Hd.
  { apply list_elem_of_In, List.filter_In. by rewrite <- list_elem_of_In. }
  rewrite find_one_head.
  destruct (Mongo.find c f) as [|x [|y l]]; simpl in *; [|split|lia].
  - by apply elem_of_nil in Hd.
  - apply list_elem_of_singleton in Hd. by subst.
  - apply list_elem_of_singleton in Hd. by subst.
Qed.

(** A document selected by a filter that tests a field is not the empty
    dict, so it counts as true. *)
Lemma matched_truthy field k f d :
  Mongo.matches ((field, k) :: f) d = true → truthy (Some d) = true.
Proof.
  simpl. intros [H _]%andb_prop. unfold truthy.
  rewrite negb_true_iff, bool_decide_eq_false. intros ->.
  by rewrite lookup_empty in H.
Qed.

Lemma found_truthy c field k f :
  truthy (Mongo.find_one c ((field, k) :: f)) =
  bool_decide (is_Some (Mongo.find_one c ((field, k) :: f))).
Proof.
  destruct (Mongo.find_one _ _) as [d|] eqn:H.
  - apply find_one_Some in H as [_ H]. rewrite (matched_truthy _ _ _ _ H).
    symmetry. by apply bool_decide_eq_true.
  - symmetry. apply bool_decide_eq_false. by intros [? [=]].
Qed.

Lemma update_first_unmatched f g c :
  Mongo.find_one c f = None → Mongo.update_first f g c = Ok (c, 0).
Proof.
  unfold Mongo.find_one. induction c as [|x c IH]; [reflexivity|].
  simpl. destruct (Mongo.matches f x); [discriminate|].
  intros H. by rewrite (IH H).
Qed.

Lemma update_first_matched f g before d after :
  Mongo.find_one before f = None → Mongo.matches f d = true →
  Mongo.update_first f g (before ++ d :: after) =
  d' ← g d; Ok (before ++ d' :: after, 1).
Proof.
  unfold Mongo.find_one. induction before as [|x c IH]; simpl.
  - by intros _ ->.
  - destruct (Mongo.matches f x); [discriminate|].
    intros Hb Hd. rewrite (IH Hb Hd). by destruct (g d).
Qed.

Lemma delete_one_unmatched f c :
  Mongo.find_one c f = None → Mongo.delete_one c f = (c, 0).
Proof.
  unfold Mongo.find_one. induction c as [|x c IH]; [reflexivity|].
  simpl. destruct (Mongo.matches f x); [discriminate|].
  intros H. by rewrite (IH H).
Qed.

Lemma delete_one_matched f before d after :
  Mongo.find_one before f = None → Mongo.matches f d = true →
  Mongo.delete_one (before ++ d :: after) f = (before ++ after, 1).
Proof.
  unfold Mongo.find_one. induction before as [|x c IH]; simpl.
  - by intros _ ->.
  - destruct (Mongo.matches f x); [discriminate|].
    intros Hb Hd. by rewrite (IH Hb Hd).
Qed.

(** [$set] keeps the [_id] and merges field by field. *)
Lemma apply_set_Ok set d d' :
  Mongo.apply_set set d = Ok d' →
  d' = set ∪ d ∧ d' !! "_id" = d !! "_id".
Proof.
  unfold Mongo.apply_set. destruct (set !! "_id") as [v|] eqn:Hid.
  - destruct v; try discriminate.
    destruct (d !! "_id") as [[]|] eqn:Hd; try discriminate.
    case_bool_decide; [|discriminate]. intros [= <-]. split; [done|].
    subst. by apply lookup_union_Some_l.
  - intros [= <-]. split; [done|]. by apply lookup_union_r.
Qed.


Lemma apply_set_no_id set d :
  set !! "_id" = None → Mongo.apply_set set d = Ok (set ∪ d).
Proof. unfold Mongo.apply_set. by intros ->. Qed.

End MongoFacts.

(** ** Collections of a database *)

Lemma collection_of_insert (d : database) name c :
  (<[name := c]> d).[name] = c.
Proof. unfold collection_of. by rewrite lookup_insert_eq. Qed.

Lemma collection_of_insert_ne (d : database) name name' c :
  name ≠ name' → (<[name := c]> d).[name'] = d.[name'].
Proof. intros H. unfold collection_of. by rewrite lookup_insert_ne. Qed.

Lemma collection_of_empty name : (∅ : database).[name] = [].
Proof. unfold collection_of. by rewrite lookup_empty. Qed.

(** [He] says that a request led to the database [d'], [Hw] which write it
    made: [d'] becomes the written database, and a look at the written
    collection gives what was written. *)
Ltac written He Hw :=
  rewrite Hw in He; injection He as <-;
  rewrite ?collection_of_insert; rewrite ?collection_of_insert_ne by done.

(** ** What a successful request did *)

Section HandlerFacts.
Context `{py_repr : !Repr} `{pwd_context : !CryptContext}.

Lemma create_document_Ok `{BaseModel A} db name (data : A) oid id d' :
  create_document db name data oid = Ok (id, d') ↔
  ∃ d, db = Some d ∧ existsb (Mongo.has_id oid) d.[name] = false ∧
       id = ObjectId_str oid ∧
       d' = <[name := d.[name] ++ [<["_id" := VOid oid]> (model_dump data)]]> d.
Proof.
  unfold create_document, Mongo.insert_one. destruct db as [d|].
  - destruct (existsb _ _) eqn:Hfresh; simpl.
    + split; [discriminate | intros (? & [= <-] & Hf & _); congruence].
    + split.
      * intros [= <- <-]. by exists d.
      * intros (? & [= <-] & _ & -> & ->). done.
  - split; [discriminate | intros (? & [=] & _)].
Qed.

Lemma signup_Ok db payload salt oid r d' :
  signup db payload salt oid = Ok (r, d') ↔
  ∃ d h,
    db = Some d ∧
    Mongo.find_one d.["user"]
      [("email", Mongo.KStr (SignupRequest.email payload))] = None ∧
    ctx_hash salt (SignupRequest.password payload) = Some h ∧
    existsb (Mongo.has_id oid) d.["user"] = false ∧
    r = {| AuthResponse.user_id := ObjectId_str oid;
           AuthResponse.email := SignupRequest.email payload;
           AuthResponse.name := SignupRequest.name payload;
           AuthResponse.role := "user" |} ∧
    d' = <["user" := d.["user"] ++ [user_document payload h oid]]> d.
Proof.
  unfold signup, hash_password. split.
  - destruct db as [d|].
    + rewrite found_truthy. case_bool_decide as Hex; [discriminate|].
      destruct (ctx_hash _ _) as [h|]; [|discriminate]. simpl.
      unfold Mongo.insert_one.
      destruct (existsb _ _) eqn:Hfresh; [discriminate|].
      simpl. intros [= <- <-]. exists d, h. repeat split; try done.
      destruct (Mongo.find_one _ _); [|done]. destruct Hex. by eexists.
    + simpl. destruct (ctx_hash _ _); discriminate.
  - intros (d & h & -> & Hnone & Hh & Hfresh & -> & ->).
    rewrite Hnone, Hh. simpl. unfold create_document, Mongo.insert_one.
    rewrite Hfresh. reflexivity.
Qed.


End HandlerFacts.

Section StepFacts.
Implicit Types (d : database) (payload : dict).

Lemma update_step_cases d step_id payload oid :
  ObjectId_of_str step_id = Ok oid →
  match Mongo.find_one d.["step"] [("_id", Mongo.KOid oid)] with
  | None =>
      update_step (Some d) step_id payload =
        Raise (HTTPException 404 "Step not found")
  | Some old =>
      ∃ before after,
        d.["step"] = before ++ old :: after ∧
        Mongo.find_one before [("_id", Mongo.KOid oid)] = None ∧
        update_step (Some d) step_id payload =
          new ← Mongo.apply_set payload old;
          Ok ({[ "updated" := VBool true ]},
              <["step" := before ++ new :: after]> d)
  end.
Proof.
  intros Hoid. unfold update_step, Mongo.update_one. rewrite Hoid. simpl.
  destruct (Mongo.find_one _ _) as [old|] eqn:Hfind.
  - apply find_one_split in Hfind as (before & after & Hc & Hb & Hm).
    exists before, after. split; [done|]. split; [done|].
    rewrite Hc, update_first_matched by done.
    by destruct (Mongo.apply_set payload old).
  - by rewrite update_first_unmatched.
Qed.

Lemma delete_step_cases d step_id oid :
  ObjectId_of_str step_id = Ok oid →
  match Mongo.find_one d.["step"] [("_id", Mongo.KOid oid)] with
  | None =>
      delete_step (Some d) step_id =
        Raise (HTTPException 404 "Step not found")
  | Some old =>
      ∃ before after,
        d.["step"] = before ++ old :: after ∧
        Mongo.find_one before [("_id", Mongo.KOid oid)] = None ∧
        delete_step (Some d) step_id =
          Ok ({[ "deleted" := VBool true ]},
              <["step" := before ++ after]> d)
  end.
Proof.
  intros Hoid. unfold delete_step. rewrite Hoid. simpl.
  destruct (Mongo.find_one _ _) as [old|] eqn:Hfind.
  - apply find_one_split in Hfind as (before & after & Hc & Hb & Hm).
    exists before, after. split; [done|]. split; [done|].
    by rewrite Hc, delete_one_matched.
  - by rewrite delete_one_unmatched.
Qed.

Lemma update_step_malformed d step_id payload :
  ObjectId_of_str step_id = Raise InvalidId →
  update_step (Some d) step_id payload = Raise InvalidId.
Proof. intros H. unfold update_step. by rewrite H. Qed.

Lemma delete_step_malformed d step_id :
  ObjectId_of_str step_id = Raise InvalidId →
  delete_step (Some d) step_id = Raise InvalidId.
Proof. intros H. unfold delete_step. by rewrite H. Qed.

Lemma ObjectId_of_str_cases step_id :
  (∃ oid, ObjectId_of_str step_id = Ok oid) ∨
  ObjectId_of_str step_id = Raise InvalidId.
Proof.
  unfold ObjectId_of_str. destruct (Nat.eqb _ _); [|by right].
  destruct (Hex.to_bytes step_id); [left; by eexists | by right].
Qed.

End StepFacts.

Section ProgressFacts.
Implicit Types (d : database).

Lemma progress_fields_no_id items utcnow :
  progress_fields items utcnow !! "_id" = None.
Proof. reflexivity. Qed.

(** [set_progress] on a connected store: the first Progress document of
    the user is overwritten field by field, or a new one is appended. *)
Lemma set_progress_cases d payload utcnow oid :
  let u := ProgressUpdate.user_id payload in
  let set := progress_fields (ProgressUpdate.items payload) utcnow in
  match Mongo.find_one d.["progress"] [("user_id", Mongo.KStr u)] with
  | Some old =>
      ∃ before after,
        d.["progress"] = before ++ old :: after ∧
        Mongo.find_one before [("user_id", Mongo.KStr u)] = None ∧
        set_progress (Some d) payload utcnow oid =
          Ok ({[ "saved" := VBool true ]},
              <["progress" := before ++ (set ∪ old) :: after]> d)
  | None =>
      set_progress (Some d) payload utcnow oid =
        if existsb (Mongo.has_id oid) d.["progress"]
        then Raise DuplicateKeyError
        else Ok ({[ "saved" := VBool true ]},
                 <["progress" := d.["progress"] ++
                     [<["_id" := VOid oid]>
                        (set ∪ {[ "user_id" := VStr u ]})]]> d)
  end.
Proof.
  intros u set. unfold set_progress, Mongo.update_one.
  fold u. change ({[ "items" := _; "updated_at" := _ ]}) with set.
  destruct (Mongo.find_one _ _) as [old|] eqn:Hfind.
  - apply find_one_split in Hfind as (before & after & Hc & Hb & Hm).
    exists before, after. split; [done|]. split; [done|].
    rewrite Hc, update_first_matched by done.
    by rewrite apply_set_no_id.
  - rewrite update_first_unmatched by done. simpl.
    unfold Mongo.insert_one. by destruct (existsb _ _).
Qed.

End ProgressFacts.

(** ** Sequences of requests *)

Section TraceFacts.
Context `{pwd_context : !CryptContext}.
Implicit Types (d : database) (c : call) (cs : list call).

Lemma exec_None c : exec None c = None.
Proof.
  destruct c; simpl; try reflexivity.
  unfold signup, hash_password. simpl. by destruct (ctx_hash _ _).
Qed.

Lemma run_None cs : run None cs = None.
Proof.
  unfold run. induction cs as [|c cs IH]; [reflexivity|].
  simpl. by rewrite exec_None.
Qed.

Lemma run_snoc db cs c : run db (cs ++ [c]) = exec (run db cs) c.
Proof. unfold run. by rewrite fold_left_app. Qed.

(** What a request does to a connected store: nothing, or one write to
    its collection. *)
Lemma exec_cases d c :
  exec (Some d) c = Some d ∨
  match c with
  | Signup payload salt oid =>
      ∃ h,
        Mongo.find_one d.["user"]
          [("email", Mongo.KStr (SignupRequest.email payload))] = None ∧
        exec (Some d) c =
          Some (<["user" := d.["user"] ++ [user_document payload h oid]]> d)
  | CreateStep step oid =>
      exec (Some d) c =
        Some (<["step" := d.["step"] ++
                 [<["_id" := VOid oid]> (model_dump step)]]> d)
  | UpdateStep step_id payload =>
      ∃ before old after,
        d.["step"] = before ++ old :: after ∧
        (payload ∪ old) !! "_id" = old !! "_id" ∧
        exec (Some d) c =
          Some (<["step" := before ++ (payload ∪ old) :: after]> d)
  | DeleteStep step_id =>
      ∃ before old after,
        d.["step"] = before ++ old :: after ∧
        exec (Some d) c = Some (<["step" := before ++ after]> d)
  | SetProgress payload utcnow oid =>
      let u := ProgressUpdate.user_id payload in
      let set := progress_fields (ProgressUpdate.items payload) utcnow in
      (∃ before old after,
         d.["progress"] = before ++ old :: after ∧
         exec (Some d) c =
           Some (<["progress" := before ++ (set ∪ old) :: after]> d)) ∨
      (Mongo.find_one d.["progress"] [("user_id", Mongo.KStr u)] = None ∧
       exec (Some d) c =
         Some (<["progress" := d.["progress"] ++
                  [<["_id" := VOid oid]>
                     (set ∪ {[ "user_id" := VStr u ]})]]> d))
  | CreateNotification payload oid =>
      exec (Some d) c =
        Some (<["notification" := d.["notification"] ++
                 [notification_document payload oid]]> d)
  end.
Proof.
  destruct c as [payload salt oid|step oid|step_id payload|step_id
                |payload utcnow oid|payload oid]; cbn [exec].
  - destruct (signup _ _ _ _) as [[r d']|e] eqn:Hs; [|by left].
    apply signup_Ok in Hs as (? & h & [= <-] & Hnone & _ & _ & _ & ->).
    right. by exists h.
  - unfold create_step, create_document, Mongo.insert_one.
    destruct (existsb _ _); [by left | by right].
  - destruct (ObjectId_of_str_cases step_id) as [[oid Hoid]|Hbad].
    + pose proof (update_step_cases d step_id payload oid Hoid) as Hu.
      destruct (Mongo.find_one _ _) as [old|]; [|rewrite Hu; by left].
      destruct Hu as (before & after & Hc & _ & ->).
      destruct (Mongo.apply_set payload old) as [new|] eqn:Hset; [|by left].
      apply apply_set_Ok in Hset as [-> Hid].
      right. by exists before, old, after.
    + rewrite update_step_malformed by done. by left.
  - destruct (ObjectId_of_str_cases step_id) as [[oid Hoid]|Hbad].
    + pose proof (delete_step_cases d step_id oid Hoid) as Hd.
      destruct (Mongo.find_one _ _) as [old|]; [|rewrite Hd; by left].
      destruct Hd as (before & after & Hc & _ & ->).
      right. by exists before, old, after.
    + rewrite delete_step_malformed by done. by left.
  - pose proof (set_progress_cases d payload utcnow oid) as Hp.
    cbn zeta in Hp. destruct (Mongo.find_one _ _) as [old|].
    + destruct Hp as (before & after & Hc & _ & ->).
      right. left. by exists before, old, after.
    + rewrite Hp. destruct (existsb _ _); [by left|]. right. by right.
  - unfold create_notification, create_document, Mongo.insert_one.
    destruct (existsb _ _); [by left | by right].
Qed.

Lemma exec_Some d c : ∃ d', exec (Some d) c = Some d'.
Proof.
  destruct c; cbn [exec]; (match goal with
  | |- ∃ _, written _ ?r = _ => destruct r as [[? ?]|?]; by eexists
  end).
Qed.

(** A request leaves every collection but its own as it was. *)
Lemma exec_frame d c d' name :
  exec (Some d) c = Some d' → name ≠ target c → d'.[name] = d.[name].
Proof.
  intros He Hname. destruct (exec_cases d c) as [Hsame|Hw].
  { congruence. }
  destruct c; cbn [target] in Hname.
  - destruct Hw as (h & _ & Hw). by written He Hw.
  - by written He Hw.
  - destruct Hw as (? & ? & ? & _ & _ & Hw). by written He Hw.
  - destruct Hw as (? & ? & ? & _ & Hw). by written He Hw.
  - destruct Hw as [(? & ? & ? & _ & Hw)|[_ Hw]]; by written He Hw.
  - by written He Hw.
Qed.

(** Induction over the requests served since start-up. *)
Lemma run_invariant (P : database → Prop) :
  P ∅ →
  (∀ d c d', P d → exec (Some d) c = Some d' → P d') →
  ∀ connected cs d, run (initial connected) cs = Some d → P d.
Proof.
  intros Hinit Hstep connected cs.
  induction cs as [|c cs IH] using rev_ind; intros d.
  - destruct connected; simpl; [by intros [= <-] | discriminate].
  - rewrite run_snoc. destruct (run (initial connected) cs) as [d0|].
    + intros He. eapply Hstep; [|exact He]. by apply IH.
    + by rewrite exec_None.
Qed.

End TraceFacts.

(** ** Invariants of the collections *)

Section Invariants.
Context `{pwd_context : !CryptContext}.
Implicit Types (d : database) (c : Mongo.collection) (doc : dict).

Lemma matches_str field s doc s' :
  doc !! field = Some (VStr s') →
  Mongo.matches [(field, Mongo.KStr s)] doc = bool_decide (s = s').
Proof. intros Hf. simpl. rewrite Hf. simpl. apply andb_true_r. Qed.

Lemma matches_oid doc o o' :
  doc !! "_id" = Some (VOid o') →
  Mongo.matches [("_id", Mongo.KOid o)] doc = bool_decide (o = o').
Proof. intros Hf. simpl. rewrite Hf. simpl. apply andb_true_r. Qed.

Lemma matches_same_field field k doc doc' :
  doc' !! field = doc !! field →
  Mongo.matches [(field, k)] doc' = Mongo.matches [(field, k)] doc.
Proof. intros Hf. simpl. by rewrite Hf. Qed.

Lemma keyed_by_nil field : keyed_by field [].
Proof. split; [constructor | intros s; simpl; lia]. Qed.

Lemma keyed_by_snoc field c doc s :
  keyed_by field c →
  Mongo.find_one c [(field, Mongo.KStr s)] = None →
  doc !! field = Some (VStr s) →
  keyed_by field (c ++ [doc]).
Proof.
  intros [Hall Huniq] Hnone Hdoc. split.
  - apply Forall_app. split; [done|]. constructor; [by eexists | constructor].
  - intros s'. rewrite find_app, length_app. unfold Mongo.find at 2.
    cbn [List.filter]. rewrite (matches_str _ _ _ _ Hdoc).
    case_bool_decide as Hs; simpl.
    + subst s'. rewrite (find_None _ _ Hnone). simpl. lia.
    + specialize (Huniq s'). lia.
Qed.

Lemma keyed_by_replace field before old new after :
  keyed_by field (before ++ old :: after) →
  new !! field = old !! field →
  keyed_by field (before ++ new :: after).
Proof.
  intros [Hall Huniq] Hsame. split.
  - apply Forall_app in Hall as [Hb Ha]. apply Forall_cons in Ha as [Ho Ha].
    apply Forall_app. split; [done|]. constructor; [|done].
    by rewrite Hsame.
  - intros s. specialize (Huniq s). revert Huniq.
    rewrite !find_app, !length_app. unfold Mongo.find. cbn [List.filter].
    rewrite (matches_same_field _ (Mongo.KStr s) _ _ Hsame).
    by destruct (Mongo.matches _ old).
Qed.


(** ... and the Progress documents by their user identifier: there is at
    most one for each user. *)
Lemma progress_keyed connected cs d :
  run (initial connected) cs = Some d → keyed_by "user_id" d.["progress"].
Proof.
  revert connected cs d.
  apply (run_invariant (λ d, keyed_by "user_id" d.["progress"])).
  { rewrite collection_of_empty. apply keyed_by_nil. }
  intros d c d' Hinv He.
  destruct (decide (target c = "progress")) as [Ht|Ht].
  - destruct (exec_cases d c) as [Hsame|Hw]; [congruence|].
    destruct c; try discriminate Ht. cbn zeta in Hw.
    destruct Hw as [(before & old & after & Hc & Hw)|[Hnone Hw]];
      written He Hw.
    + rewrite Hc in Hinv. eapply keyed_by_replace; [exact Hinv|].
      by apply lookup_union_r.
    + by eapply keyed_by_snoc.
  - by rewrite (exec_frame _ _ _ "progress" He).
Qed.

(** ... and every Step document carries the ObjectId it was given. *)
Lemma steps_identified connected cs d :
  run (initial connected) cs = Some d → identified d.["step"].
Proof.
  revert connected cs d.
  apply (run_invariant (λ d, identified d.["step"])).
  { rewrite collection_of_empty. constructor. }
  intros d c d' Hinv He. unfold identified in *.
  destruct (decide (target c = "step")) as [Ht|Ht].
  - destruct (exec_cases d c) as [Hsame|Hw]; [congruence|].
    destruct c; try discriminate Ht.
    + written He Hw.
      apply Forall_app. split; [done|].
      constructor; [|constructor]. eexists. apply lookup_insert_eq.
    + destruct Hw as (before & old & after & Hc & Hid & Hw).
      written He Hw.
      rewrite Hc in Hinv. apply Forall_app in Hinv as [Hb Ha].
      apply Forall_cons in Ha as [Ho Ha]. apply Forall_app. split; [done|].
      constructor; [|done]. by rewrite Hid.
    + destruct Hw as (before & old & after & Hc & Hw).
      written He Hw.
      rewrite Hc in Hinv. apply Forall_app in Hinv as [Hb Ha].
      apply Forall_cons in Ha as [Ho Ha]. apply Forall_app. by split.
  - by rewrite (exec_frame _ _ _ "step" He).
Qed.

End Invariants.

(** ** Accounts *)

Section Accounts.
Context `{py_repr : !Repr} `{pwd_context : !CryptContext}.
Implicit Types (d : database) (payload : SignupRequest.t).










End Accounts.

Section KeyedFacts.
Implicit Types (c : Mongo.collection) (doc : dict).

Lemma keyed_find_one field c s doc :
  keyed_by field c →
  Mongo.find_one c [(field, Mongo.KStr s)] = Some doc ↔
  doc ∈ c ∧ doc !! field = Some (VStr s).
Proof.
  intros [Hall Huniq]. split.
  - intros [Hin Hm]%find_one_Some. split; [done|].
    rewrite Forall_forall in Hall. destruct (Hall doc Hin) as [s' Hs'].
    rewrite (matches_str _ _ _ _ Hs') in Hm.
    apply bool_decide_eq_true in Hm. by subst.
  - intros [Hin Hs]. apply find_unique; [done..|].
    by rewrite (matches_str _ _ _ _ Hs), bool_decide_eq_true_2.
Qed.


End KeyedFacts.

Section AccountClaims.
Context `{py_repr : !Repr} `{pwd_context : !CryptContext}.




(** C9: when the store connection handle is absent, login fails with 401
    "Invalid credentials" for every credential pair, and so not with the
    500 "Database not available" of the handlers that test the handle. *)
Theorem login_without_store credentials :
  login None credentials = Raise (HTTPException 401 "Invalid credentials") ∧
  login None credentials ≠ Raise (HTTPException 500 "Database not available").
Proof. split; [reflexivity | discriminate]. Qed.

End AccountClaims.

Section ProgressClaims.

(** C10: get-progress never fails: it always answers a body made of the
    one field [items]; with the store connection handle absent, as with
    no (or an empty) Progress document for the user, that is the empty
    map, where set-progress fails with 500 "Database not available" when
    the handle is absent. *)
Theorem get_progress_never_fails :
  (∀ db user_id, ∃ items, get_progress db user_id = {[ "items" := items ]}) ∧
  (∀ user_id, get_progress None user_id = {[ "items" := VDict ∅ ]}) ∧
  (∀ d user_id,
     Mongo.find_one d.["progress"] [("user_id", Mongo.KStr user_id)] = None →
     get_progress (Some d) user_id = {[ "items" := VDict ∅ ]}) ∧
  (∀ payload utcnow oid,
     set_progress None payload utcnow oid =
       Raise (HTTPException 500 "Database not available")).
Proof.
  repeat split.
  - intros [d|] user_id; simpl; [|by eexists].
    destruct (negb _); by eexists.
  - intros d user_id Hnone. unfold get_progress. by rewrite Hnone.
Qed.

End ProgressClaims.

(** ** Steps *)

Section StepClaims.
Context `{pwd_context : !CryptContext}.
Implicit Types (d : database) (payload : dict).

Lemma identified_find_one_None (c : Mongo.collection) oid :
  identified c →
  Mongo.find_one c [("_id", Mongo.KOid oid)] = None ↔
  ∀ doc, doc ∈ c → doc !! "_id" ≠ Some (VOid oid).
Proof.
  intros Hid. rewrite find_one_None. unfold identified in Hid.
  rewrite Forall_forall in Hid.
  split; intros Hno doc Hin; destruct (Hid doc Hin) as [o Ho];
    specialize (Hno doc Hin).
  - rewrite (matches_oid _ _ _ Ho) in Hno.
    apply bool_decide_eq_false in Hno. congruence.
  - rewrite (matches_oid _ _ _ Ho). apply bool_decide_eq_false. congruence.
Qed.





End StepClaims.


(** ** Progress *)

Section ProgressRoundTrip.
Context `{pwd_context : !CryptContext}.
Implicit Types (d : database) (payload : ProgressUpdate.t).

Lemma progress_fields_items items utcnow :
  progress_fields items utcnow !! "items" = Some (VDict (VBool <$> items)).
Proof. reflexivity. Qed.

Lemma progress_fields_updated_at items utcnow :
  progress_fields items utcnow !! "updated_at" = Some (VDatetime utcnow).
Proof. reflexivity. Qed.




(** A set-progress on a connected store succeeds when the ObjectId offered
    for a new document is not taken. *)
Lemma set_progress_succeeds d payload utcnow oid :
  existsb (Mongo.has_id oid) d.["progress"] = false →
  ∃ d1, set_progress (Some d) payload utcnow oid =
          Ok ({[ "saved" := VBool true ]}, d1).
Proof.
  intros Hfresh. pose proof (set_progress_cases d payload utcnow oid) as Hc.
  cbn zeta in Hc. destruct (Mongo.find_one _ _) as [old|].
  - destruct Hc as (before & after & _ & _ & ->). by eexists.
  - rewrite Hc, Hfresh. by eexists.
Qed.




End ProgressRoundTrip.

(** ** Sorting *)

Section SortFacts.
Context {A : Type}.
Implicit Types (x y : value * A) (l : list (value * A)).



End SortFacts.


(** ** Listing the steps *)

Section ListSteps.
Context `{py_repr : !Repr}.
Implicit Types (doc it : dict).





End ListSteps.

(** ** Notifications *)

Section Notifications.
Context `{py_repr : !Repr} `{pwd_context : !CryptContext}.
Implicit Types (d : database) (payload : NotificationIn.t).









End Notifications.

(** * Further properties *)

(** ** The shape of a write *)

Section Writes.
Context `{pwd_context : !CryptContext}.
Implicit Types (d : database) (c : call) (doc : dict).

Lemma fresh_id oid (col : Mongo.collection) doc :
  existsb (Mongo.has_id oid) col = false → doc ∈ col →
  doc !! "_id" ≠ Some (VOid oid).
Proof.
  intros Hfresh Hin Hid.
  assert (existsb (Mongo.has_id oid) col = true) as Htaken; [|congruence].
  apply existsb_exists. exists doc. split; [by apply list_elem_of_In|].
  unfold Mongo.has_id, get. rewrite Hid. simpl. by apply bool_decide_eq_true.
Qed.

(** Every write a request makes is one of three: a document with an
    ObjectId no document of the collection has is appended, a document is
    replaced in place by one with the same [_id], or a document is
    removed. *)
Lemma exec_writes d c d' :
  exec (Some d) c = Some d' →
  d' = d ∨
  (∃ doc oid,
     d' = <[target c := d.[target c] ++ [doc]]> d ∧
     doc !! "_id" = Some (VOid oid) ∧
     existsb (Mongo.has_id oid) d.[target c] = false) ∨
  (∃ before old new after,
     d.[target c] = before ++ old :: after ∧
     d' = <[target c := before ++ new :: after]> d ∧
     new !! "_id" = old !! "_id") ∨
  (∃ before old after,
     d.[target c] = before ++ old :: after ∧
     d' = <[target c := before ++ after]> d).
Proof.
  destruct c as [payload salt oid|step oid|step_id payload|step_id
                |payload utcnow oid|payload oid]; cbn [exec target].
  - destruct (signup _ _ _ _) as [[r d1]|e] eqn:Hs; cbn [written].
    + intros [= <-].
      apply signup_Ok in Hs as (? & h & [= <-] & _ & _ & Hfresh & _ & ->).
      right. left. by exists (user_document payload h oid), oid.
    + intros [= <-]. by left.
  - unfold create_step, create_document, Mongo.insert_one.
    destruct (existsb _ _) eqn:Hfresh; cbn; intros [= <-]; [by left|].
    right. left. eexists _, oid. split; [done|].
    split; [apply lookup_insert_eq | done].
  - destruct (ObjectId_of_str_cases step_id) as [[oid Hoid]|Hbad].
    + pose proof (update_step_cases d step_id payload oid Hoid) as Hu.
      destruct (Mongo.find_one _ _) as [old|];
        [|rewrite Hu; intros [= <-]; by left].
      destruct Hu as (before & after & Hc & _ & ->).
      destruct (Mongo.apply_set payload old) as [new|] eqn:Hset; cbn;
        intros [= <-]; [|by left].
      apply apply_set_Ok in Hset as [-> Hid].
      right. right. left. by exists before, old, (payload ∪ old), after.
    + rewrite update_step_malformed by done. intros [= <-]. by left.
  - destruct (ObjectId_of_str_cases step_id) as [[oid Hoid]|Hbad].
    + pose proof (delete_step_cases d step_id oid Hoid) as Hd.
      destruct (Mongo.find_one _ _) as [old|];
        [|rewrite Hd; intros [= <-]; by left].
      destruct Hd as (before & after & Hc & _ & ->). cbn. intros [= <-].
      right. right. right. by exists before, old, after.
    + rewrite delete_step_malformed by done. intros [= <-]. by left.
  - pose proof (set_progress_cases d payload utcnow oid) as Hp.
    cbn zeta in Hp. destruct (Mongo.find_one _ _) as [old|].
    + destruct Hp as (before & after & Hc & _ & ->). cbn. intros [= <-].
      right. right. left. eexists before, old, _, after.
      split; [done|]. split; [done|]. by apply lookup_union_r.
    + rewrite Hp. destruct (existsb _ _) eqn:Hfresh; cbn; intros [= <-];
        [by left|].
      right. left. eexists _, oid. split; [done|].
      split; [apply lookup_insert_eq | done].
  - unfold create_notification, create_document, Mongo.insert_one.
    destruct (existsb _ _) eqn:Hfresh; cbn; intros [= <-]; [by left|].
    right. left. eexists _, oid. split; [done|].
    split; [apply lookup_insert_eq | done].
Qed.



End Writes.

(** ** Creating, updating and deleting a Step *)

Section StepLifeCycle.
Context `{pwd_context : !CryptContext}.
Implicit Types (d : database) (payload : dict).

Lemma create_step_Ok db step oid resp d1 :
  create_step db step oid = Ok (resp, d1) ↔
  ∃ d, db = Some d ∧ existsb (Mongo.has_id oid) d.["step"] = false ∧
       resp = {[ "id" := VStr (ObjectId_str oid) ]} ∧
       d1 = <["step" := d.["step"] ++ [step_document step oid]]> d.
Proof.
  unfold create_step. split.
  - destruct (create_document db "step" step oid) as [[id d']|e] eqn:Hc;
      [|discriminate].
    cbn. intros [= <- <-].
    apply create_document_Ok in Hc as (d & -> & Hfresh & -> & ->).
    by exists d.
  - intros (d & -> & Hfresh & -> & ->).
    unfold create_document, Mongo.insert_one. by rewrite Hfresh.
Qed.

Lemma step_document_id step oid :
  step_document step oid !! "_id" = Some (VOid oid).
Proof. apply lookup_insert_eq. Qed.

(** A stored Step whose ObjectId no earlier Step has is the one found
    under it. *)
Lemma find_one_appended (c : Mongo.collection) doc oid :
  identified c → existsb (Mongo.has_id oid) c = false →
  doc !! "_id" = Some (VOid oid) →
  Mongo.find_one c [("_id", Mongo.KOid oid)] = None ∧
  Mongo.find_one (c ++ [doc]) [("_id", Mongo.KOid oid)] = Some doc.
Proof.
  intros Hid Hfresh Hdoc.
  assert (Mongo.find_one c [("_id", Mongo.KOid oid)] = None) as Hnone.
  { apply identified_find_one_None; [done|].
    intros doc' Hin. by eapply fresh_id. }
  split; [done|]. rewrite find_one_app, Hnone.
  unfold Mongo.find_one. cbn [List.find].
  by rewrite (matches_oid _ _ _ Hdoc), bool_decide_eq_true_2.
Qed.


(** X2: deleting a Step through the identifier [create_step] returned
    undoes the creation: the Steps are again those stored before it, and
    no other collection has changed. *)
Theorem created_step_deletable connected cs step oid resp d1 :
  let db := run (initial connected) cs in
  create_step db step oid = Ok (resp, d1) →
  List.length oid = 12%nat →
  ∃ d d2,
    db = Some d ∧
    delete_step (Some d1) (ObjectId_str oid) =
      Ok ({[ "deleted" := VBool true ]}, d2) ∧
    d2.["step"] = d.["step"] ∧
    ∀ name, name ≠ "step" → d2.[name] = d.[name].
Proof.
  intros db Hc Hlen.
  apply create_step_Ok in Hc as (d & Hd & Hfresh & -> & ->).
  assert (identified d.["step"]) as Hid by by eapply steps_identified.
  destruct (find_one_appended _ _ _ Hid Hfresh (step_document_id step oid))
    as [Hnone _].
  exists d. eexists. split; [done|].
  unfold delete_step. rewrite (ObjectId_of_str_str oid Hlen). cbn.
  rewrite collection_of_insert, delete_one_matched; [|done|].
  - cbn. split; [done|]. rewrite collection_of_insert, app_nil_r.
    split; [done|]. intros name Hname.
    by rewrite !collection_of_insert_ne.
  - by rewrite (matches_oid _ _ _ (step_document_id step oid)),
      bool_decide_eq_true_2.
Qed.



(** X17: update-step is idempotent: after an update that succeeded, the
    same update succeeds again and changes nothing. *)
Theorem update_step_idempotent db step_id payload resp d1 :
  update_step db step_id payload = Ok (resp, d1) →
  update_step (Some d1) step_id payload = Ok (resp, d1).
Proof.
  intros Hu. destruct db as [d|]; [|discriminate].
  destruct (ObjectId_of_str_cases step_id) as [[oid Hoid]|Hbad];
    [|by rewrite update_step_malformed in Hu].
  pose proof (update_step_cases d step_id payload oid Hoid) as Hc.
  destruct (Mongo.find_one _ _) as [old|] eqn:Hfound; [|congruence].
  destruct Hc as (before & after & Hsteps & Hbefore & Hc).
  rewrite Hc in Hu. clear Hc.
  destruct (Mongo.apply_set payload old) as [new|] eqn:Hset; [|discriminate].
  injection Hu as <- <-.
  pose proof Hset as [-> Hid]%apply_set_Ok.
  assert (Mongo.matches [("_id", Mongo.KOid oid)] (payload ∪ old) = true)
    as Hnew.
  { rewrite (matches_same_field _ _ old) by done.
    by apply find_one_Some in Hfound as [_ ?]. }
  assert (Mongo.apply_set payload (payload ∪ old) = Ok (payload ∪ old))
    as Hagain.
  { unfold Mongo.apply_set in Hset |- *.
    rewrite Hid. destruct (payload !! "_id") as [v|].
    - destruct v; try discriminate.
      destruct (old !! "_id") as [[]|]; try discriminate.
      case_bool_decide; [|discriminate].
      by rewrite (assoc_L (∪)), (idemp_L (∪)).
    - by rewrite (assoc_L (∪)), (idemp_L (∪)). }
  unfold update_step, Mongo.update_one. rewrite Hoid. cbn.
  rewrite collection_of_insert, update_first_matched by done.
  rewrite Hagain. cbn. by rewrite insert_insert_eq.
Qed.

End StepLifeCycle.

(** ** More on sorting *)

Section SortMore.
Context {A : Type}.
Implicit Types (x y : value * A) (l s : list (value * A)).

Lemma int_keyed_int_of x : int_keyed x ↔ is_Some (int_of (fst x)).
Proof.
  unfold int_keyed. split.
  - intros [n ->]. by eexists.
  - intros [n Hn]. destruct (fst x); try discriminate. by eexists.
Qed.











End SortMore.

Section ListStepsMore.
Context `{py_repr : !Repr}.
Implicit Types (doc it : dict).








End ListStepsMore.

(** ** More on accounts *)

Section AccountsMore.
Context `{py_repr : !Repr} `{pwd_context : !CryptContext}.
Implicit Types (d : database) (doc : dict).








End AccountsMore.

(** ** More on progress *)

Section ProgressMore.
Context `{pwd_context : !CryptContext}.
Implicit Types (d : database) (doc : dict).



Lemma find_one_replaced (before after : Mongo.collection) old new f :
  Mongo.matches f new = Mongo.matches f old →
  Mongo.matches f old = false →
  Mongo.find_one (before ++ new :: after) f =
  Mongo.find_one (before ++ old :: after) f.
Proof.
  intros Hsame Hold. rewrite !find_one_app. unfold Mongo.find_one.
  cbn [List.find]. by rewrite Hsame, Hold.
Qed.

(** X12: in every state the API can reach, saving the progress of one
    user leaves the progress of every other user as it was. *)
Theorem progress_independent connected cs payload utcnow oid resp d1 other :
  let db := run (initial connected) cs in
  set_progress db payload utcnow oid = Ok (resp, d1) →
  other ≠ ProgressUpdate.user_id payload →
  get_progress (Some d1) other = get_progress db other.
Proof.
  intros db Hs Hother. destruct db as [d|] eqn:Hdb; [|discriminate].
  assert (Mongo.find_one d1.["progress"] [("user_id", Mongo.KStr other)] =
          Mongo.find_one d.["progress"] [("user_id", Mongo.KStr other)])
    as Hsame; [|unfold get_progress; by rewrite Hsame].
  pose proof (set_progress_cases d payload utcnow oid) as Hc.
  cbn zeta in Hc.
  destruct (Mongo.find_one d.["progress"]
              [("user_id", Mongo.KStr (ProgressUpdate.user_id payload))])
    as [old|] eqn:Hfound.
  - destruct Hc as (before & after & Hp & _ & Hc).
    rewrite Hc in Hs. injection Hs as <- <-.
    rewrite collection_of_insert, Hp.
    apply keyed_find_one in Hfound as [_ Hold];
      [|by eapply progress_keyed].
    apply find_one_replaced.
    + apply matches_same_field.
      by rewrite lookup_union_r.
    + by rewrite (matches_str _ _ _ _ Hold), bool_decide_eq_false_2.
  - rewrite Hc in Hs. destruct (existsb _ _); [discriminate|].
    injection Hs as <- <-. rewrite collection_of_insert, find_one_app.
    destruct (Mongo.find_one d.["progress"]
                [("user_id", Mongo.KStr other)]) as [doc|]; [done|].
    unfold Mongo.find_one. cbn [List.find].
    erewrite matches_str, bool_decide_eq_false_2; [done..|].
    rewrite lookup_insert_ne by done.
    rewrite lookup_union_r by done. apply lookup_singleton_eq.
Qed.

End ProgressMore.

(** ** Across the collections *)

Section Collections.
Context `{py_repr : !Repr} `{pwd_context : !CryptContext}.
Implicit Types (d : database) (c : call).

(** X13: the endpoints of one collection do not see the requests made on
    another: a request that does not write to the Steps leaves
    list-steps as it was, one that does not write to the Users leaves
    every login as it was, and likewise for get-progress and
    list-notifications. *)
Theorem requests_keep_apart db c :
  (target c ≠ "step" → list_steps (exec db c) = list_steps db) ∧
  (target c ≠ "user" →
   ∀ credentials, login (exec db c) credentials = login db credentials) ∧
  (target c ≠ "progress" →
   ∀ user_id, get_progress (exec db c) user_id = get_progress db user_id) ∧
  (target c ≠ "notification" →
   ∀ user_id,
     list_notifications (exec db c) user_id = list_notifications db user_id).
Proof.
  destruct db as [d|]; [|by rewrite exec_None].
  destruct (exec_Some d c) as [d' He]. rewrite He.
  split; [|split; [|split]].
  - intros Ht. unfold list_steps, get_documents.
    by rewrite (exec_frame _ _ _ "step" He).
  - intros Ht credentials. unfold login.
    by rewrite (exec_frame _ _ _ "user" He).
  - intros Ht user_id. unfold get_progress.
    by rewrite (exec_frame _ _ _ "progress" He).
  - intros Ht user_id. unfold list_notifications, get_documents.
    by rewrite (exec_frame _ _ _ "notification" He).
Qed.

(** X14: without a store connection handle nothing is ever stored or
    listed: whatever requests were made, the handle is still absent,
    list-steps and list-notifications return the empty list, and
    [create_step], [create_notification] and [signup] let an error of the
    data-access layer or of the password scheme through instead of
    raising an [HTTPException]. *)
Theorem nothing_without_store cs :
  let db := run (initial false) cs in
  db = None ∧
  list_steps db = Ok [] ∧
  (∀ user_id, list_notifications db user_id = []) ∧
  (∀ step oid, create_step db step oid = Raise DatabaseNotAvailable) ∧
  (∀ payload oid,
     create_notification db payload oid = Raise DatabaseNotAvailable) ∧
  (∀ payload salt oid,
     signup db payload salt oid = Raise DatabaseNotAvailable ∨
     signup db payload salt oid = Raise ValueError).
Proof.
  intros db. unfold db. cbn [initial]. rewrite run_None.
  repeat split.
  intros payload salt oid. unfold signup, hash_password. cbn.
  destruct (ctx_hash _ _); [by left | by right].
Qed.

Lemma target_announced c :
  VStr (target c) ∈ announced ∧ target c ≠ "recommendationprofile".
Proof.
  unfold announced. destruct c; cbn [target]; (split; [|done]);
    change (get_schema_info !! "collections")
      with (Some (VList [VStr "user"; VStr "progress"; VStr "step";
                         VStr "notification"; VStr "recommendationprofile"]));
    repeat first [by constructor | apply list_elem_of_further].
Qed.

(** X15: in every state the API can reach, every collection of the
    database is one [get_schema_info] announces, and the announced
    "recommendationprofile" is not among them: no endpoint writes to
    it. *)
Theorem collections_announced connected cs d name :
  run (initial connected) cs = Some d →
  is_Some (d !! name) →
  VStr name ∈ announced ∧ name ≠ "recommendationprofile".
Proof.
  revert connected cs d.
  apply (run_invariant
           (λ d, is_Some (d !! name) →
                 VStr name ∈ announced ∧ name ≠ "recommendationprofile")).
  { rewrite lookup_empty. by intros [? [=]]. }
  intros d c d' Hinv He.
  destruct (exec_writes d c d' He)
    as [->|[(doc & oid & -> & _)
           |[(before & old & new & after & _ & -> & _)
            |(before & old & after & _ & ->)]]];
    [done|..];
    (destruct (decide (target c = name)) as [<-|Hname];
       [intros _; apply target_announced
       |by rewrite lookup_insert_ne]).
Qed.


End Collections.

(** * The theorems at work

    Each theorem that has a premise is applied here to concrete requests,
    with the stand-in password scheme of [Demo]. *)

Section Witnesses.
Import Demo.









Lemma get_progress_never_fails_witness :
  get_progress (Some ∅) "u1" = {[ "items" := VDict ∅ ]}.
Proof.
  destruct get_progress_never_fails as (_ & _ & Hmissing & _).
  apply Hmissing. reflexivity.
Defined.


Lemma created_step_deletable_witness :
  let db1 : database := {[ "step" := [visa] ]} in
  create_step (initial true) (step "visa" 3) oid1 =
    Ok ({[ "id" := VStr "654a1b2c3d4e5f60718293a4" ]}, db1) ∧
  ∃ d2,
    delete_step (Some db1) "654a1b2c3d4e5f60718293a4" =
      Ok ({[ "deleted" := VBool true ]}, d2) ∧
    d2.["step"] = [].
Proof.
  intros db1.
  assert (create_step (initial true) (step "visa" 3) oid1 =
            Ok ({[ "id" := VStr "654a1b2c3d4e5f60718293a4" ]}, db1)) as Hc
    by reflexivity.
  split; [exact Hc|].
  destruct (created_step_deletable true [] (step "visa" 3) oid1 _ db1 Hc)
    as (d & d2 & Hd & Hdel & Hsteps & _); [reflexivity|].
  injection Hd as <-. exists d2. split; [exact Hdel | exact Hsteps].
Defined.









Lemma progress_independent_witness :
  let first := {| ProgressUpdate.user_id := "u1";
                  ProgressUpdate.items := {[ "a" := true ]} |} in
  let second := {| ProgressUpdate.user_id := "u2";
                   ProgressUpdate.items := {[ "a" := false ]} |} in
  let db := run (initial true) [SetProgress first 1700000000 oid1] in
  match set_progress db second 1700000060 oid2 with
  | Ok (_, d1) => get_progress (Some d1) "u1" = get_progress db "u1"
  | Raise _ => False
  end.
Proof.
  intros first second db.
  destruct (set_progress db second 1700000060 oid2) as [[resp d1]|e] eqn:Hs.
  - apply (progress_independent true _ _ _ _ _ _ "u1" Hs). discriminate.
  - assert (is_ok (set_progress db second 1700000060 oid2) = true) as Hok
      by reflexivity.
    rewrite Hs in Hok. discriminate Hok.
Defined.

Lemma requests_keep_apart_witness :
  let ada_login := {| LoginRequest.email := "ada@example.org";
                      LoginRequest.password := "s3cret" |} in
  login (exec (Some with_ada) (CreateStep (step "visa" 3) oid1)) ada_login =
    login (Some with_ada) ada_login ∧
  list_steps (exec (Some with_ada) (Signup ada "salt" oid2)) =
    list_steps (Some with_ada).
Proof.
  intros ada_login. split.
  - destruct (requests_keep_apart (Some with_ada)
                (CreateStep (step "visa" 3) oid1)) as (_ & Hlogin & _).
    apply Hlogin. discriminate.
  - destruct (requests_keep_apart (Some with_ada) (Signup ada "salt" oid2))
      as (Hsteps & _).
    apply Hsteps. discriminate.
Defined.

Lemma collections_announced_witness :
  VStr "user" ∈ announced ∧ "user" ≠ "recommendationprofile".
Proof.
  apply (collections_announced true [Signup ada "salt" oid1] with_ada).
  - reflexivity.
  - eexists. reflexivity.
Defined.


Lemma update_step_idempotent_witness :
  let payload : dict := {[ "title" := VStr "Work visa" ]} in
  let db : database := {[ "step" := [visa] ]} in
  let db1 : database := {[ "step" := [payload ∪ visa] ]} in
  update_step (Some db) "654a1b2c3d4e5f60718293a4" payload =
    Ok ({[ "updated" := VBool true ]}, db1) ∧
  update_step (Some db1) "654a1b2c3d4e5f60718293a4" payload =
    Ok ({[ "updated" := VBool true ]}, db1).
Proof.
  intros payload db db1.
  assert (update_step (Some db) "654a1b2c3d4e5f60718293a4" payload =
            Ok ({[ "updated" := VBool true ]}, db1)) as Hu
    by reflexivity.
  split; [exact Hu|]. exact (update_step_idempotent _ _ _ _ _ Hu).
Defined.

End Witnesses.
